(** * hal_adc.c: raw ADC sample to millivolt conversion

    A shallow embedding of [convert_adc_raw_to_mvolt] (hal_adc.c, lines
    284-307) and of the part of the device it reads, and of the sampling
    loop around it (the separator macro, [adc_readings] and
    [seconds_app_timer_cb]), followed by the properties of the
    conversion and of the loop.

    C integers are modelled as [Z] with the wrap-around written out:
    - [INT16], [INT32] and [UINT32] values are integers in the ranges
      [in_int16], [in_int32] and [in_uint32];
    - arithmetic on [INT32] wraps modulo 2^32 (two's complement), which
      is what the Cortex-M targets of the sample do; the product
      [mvolt *= ref_mvolts] is an unsigned product by the usual
      arithmetic conversions and is converted back to [INT32];
    - [>>] on a signed value is the arithmetic shift;
    - [/] truncates toward zero, and a zero divisor is a fault. *)

From Stdlib Require Import ZArith Lia Ascii String List DecimalString.
Import ListNotations.
Local Open Scope Z_scope.

(** ** Fixed-width integers *)

Definition in_int16 (z : Z) : Prop := - 2 ^ 15 <= z < 2 ^ 15.
Definition in_int32 (z : Z) : Prop := - 2 ^ 31 <= z < 2 ^ 31.
Definition in_uint32 (z : Z) : Prop := 0 <= z < 2 ^ 32.

(** Conversion to [UINT32]: reduction modulo 2^32. *)
Definition to_uint32 (z : Z) : Z := z mod 2 ^ 32.

(** Conversion to [INT32]: the representative of [z] modulo 2^32 that
    lies in [-2^31, 2^31). *)
Definition to_int32 (z : Z) : Z := (z + 2 ^ 31) mod 2 ^ 32 - 2 ^ 31.

Definition int32_add (a b : Z) : Z := to_int32 (a + b).
Definition int32_sub (a b : Z) : Z := to_int32 (a - b).

(** [INT32 *= UINT32]: the signed operand is converted to [UINT32], the
    product is taken modulo 2^32 and stored back into the [INT32]. *)
Definition int32_mul_uint32 (a u : Z) : Z :=
  to_int32 (to_uint32 (to_uint32 a * u)).

(** [INT32 >> n], arithmetic. *)
Definition int32_shr (a n : Z) : Z := Z.shiftr a n.

(** [INT32 / INT32]: no result on a zero divisor, the truncated quotient
    otherwise (wrapped, for the one overflowing case INT32_MIN / -1). *)
Definition int32_div (a b : Z) : option Z :=
  if b =? 0 then None else Some (to_int32 (Z.quot a b)).

(** ** Results *)

Inductive outcome (A : Type) : Type :=
| Returns (a : A)
| DivideByZero.
Arguments Returns {A} a.
Arguments DivideByZero {A}.

(** ** The conversion, lines 291-306

    [convert raw_val gnd_reading ref_reading ref_mvolts] is the body of
    [convert_adc_raw_to_mvolt] once the three calibration values have
    been read into its locals.  The successive values of the local
    [mvolt] are named so that statements can speak about them. *)

(** Lines 296-301: clamp to the ground reading, then [mvolt -= gnd_reading]. *)
Definition delta (raw_val gnd_reading : Z) : Z :=
  let mvolt := raw_val in
  let mvolt := if mvolt <? gnd_reading then gnd_reading else mvolt in
  int32_sub mvolt gnd_reading.

(** Line 302: [mvolt *= ref_mvolts]. *)
Definition scaled (raw_val gnd_reading ref_mvolts : Z) : Z :=
  int32_mul_uint32 (delta raw_val gnd_reading) ref_mvolts.

(** [ref_reading - gnd_reading], the divisor of line 304. *)
Definition span (gnd_reading ref_reading : Z) : Z :=
  int32_sub ref_reading gnd_reading.

(** Line 303, right-hand side: [(ref_reading - gnd_reading) >> 1]. *)
Definition rounding_bias (gnd_reading ref_reading : Z) : Z :=
  int32_shr (span gnd_reading ref_reading) 1.

(** Line 303: [mvolt += ...]. *)
Definition biased (raw_val gnd_reading ref_reading ref_mvolts : Z) : Z :=
  int32_add (scaled raw_val gnd_reading ref_mvolts)
            (rounding_bias gnd_reading ref_reading).

Definition convert (raw_val gnd_reading ref_reading ref_mvolts : Z)
  : outcome Z :=
  let mvolt := raw_val in
  if mvolt =? 0 then Returns 0
  else
    match int32_div (biased raw_val gnd_reading ref_reading ref_mvolts)
                    (span gnd_reading ref_reading) with
    | None => DivideByZero
    | Some mvolt => Returns (to_uint32 mvolt)
    end.

(** ** The device and the whole function, lines 284-307 *)

(** What the function can see of the device: the three calibration
    values kept by the ADC driver, the file's one global
    ([seconds_timer], the period it was started with, if any) and the
    text sent to the debug UART by [WICED_BT_TRACE]. *)
Record device : Type := {
  adc_ground_offset : Z;
  adc_reference_reading : Z;
  adc_reference_micro_volts : Z;
  seconds_timer : option Z;
  puart : list string
}.

(** Computations over the device that may fault. *)
Definition hal (A : Type) : Type := device -> outcome A * device.

Definition bind {A B} (m : hal A) (k : A -> hal B) : hal B :=
  fun d =>
    match m d with
    | (Returns a, d') => k a d'
    | (DivideByZero, d') => (DivideByZero, d')
    end.

Definition lift {A} (o : outcome A) : hal A := fun d => (o, d).

Notation "x <- m ;; k" := (bind m (fun x => k))
  (at level 61, m at next level, right associativity).

(** The driver's getters are declared in the vendor headers, not in this
    file; they are taken as reads of the corresponding device values. *)
Definition wiced_hal_adc_get_ground_offset : hal Z :=
  fun d => (Returns (adc_ground_offset d), d).
Definition wiced_hal_adc_get_reference_reading : hal Z :=
  fun d => (Returns (adc_reference_reading d), d).
Definition wiced_hal_adc_get_reference_micro_volts : hal Z :=
  fun d => (Returns (adc_reference_micro_volts d), d).

Definition convert_adc_raw_to_mvolt (raw_val : Z) : hal Z :=
  gnd_reading <- wiced_hal_adc_get_ground_offset ;;
  ref_reading <- wiced_hal_adc_get_reference_reading ;;
  ref_mvolts <- wiced_hal_adc_get_reference_micro_volts ;;
  lift (convert raw_val gnd_reading ref_reading ref_mvolts).

(** The values of the C types: what a caller can pass and what the
    locals of the function can hold. *)
Definition well_typed (raw_val gnd_reading ref_reading ref_mvolts : Z) : Prop :=
  in_int16 raw_val /\ in_int32 gnd_reading /\ in_int32 ref_reading /\
  in_uint32 ref_mvolts.

(** No intermediate value of the computation leaves [INT32]: the span
    and the scaled, biased sample, both taken over the integers. *)
Definition no_overflow (raw_val gnd_reading ref_reading ref_mvolts : Z) : Prop :=
  in_int32 (ref_reading - gnd_reading) /\
  in_int32 ((Z.max raw_val gnd_reading - gnd_reading) * ref_mvolts
            + Z.shiftr (ref_reading - gnd_reading) 1).

(** Comparison of two results of the conversion. *)
Definition outcome_le (o1 o2 : outcome Z) : Prop :=
  match o1, o2 with
  | Returns v1, Returns v2 => v1 <= v2
  | _, _ => False
  end.

(** [o2] is [k] times [o1]. *)
Definition scales_by (k : Z) (o1 o2 : outcome Z) : Prop :=
  match o1, o2 with
  | Returns v1, Returns v2 => v2 = k * v1
  | DivideByZero, DivideByZero => True
  | _, _ => False
  end.

(** ** Reference formulas

    Formulas over the integers, to be compared with the definitions
    above. *)

(** The rounding bias in the words of the specification:
    "(reference_reading - ground_offset) / 2 (integer-truncating)". *)
Definition spec_rounding_bias (ground_offset reference_reading : Z) : Z :=
  Z.quot (reference_reading - ground_offset) 2.

(** The calibration formula of lines 296-304 over the integers, without
    wrap-around: clamp, subtract, scale, add the bias, divide. *)
Definition exact_millivolts
  (raw_sample ground_offset reference_reading reference_microvolts : Z) : Z :=
  Z.quot ((Z.max raw_sample ground_offset - ground_offset) * reference_microvolts
          + Z.shiftr (reference_reading - ground_offset) 1)
         (reference_reading - ground_offset).

(** [x / s] rounded to the nearest integer, halves upward ([0 < s]). *)
Definition round_half_up (x s : Z) : Z := (2 * x + s) / (2 * s).

(** ** The rest of the application, lines 62-269

    The sampling loop around the conversion: the build configuration,
    the trace output, the per-channel report and the timer callback. *)

(** Conversion to [INT16], as in [conv_val = convert_adc_raw_to_mvolt (...)]
    on line 255. *)
Definition to_int16 (z : Z) : Z := (z + 2 ^ 15) mod 2 ^ 16 - 2 ^ 15.

(** The preprocessor symbols the file tests with [defined] or [#ifdef]. *)
Record build : Type := {
  CYW20819 : bool;
  CYW20820 : bool;
  CYW20706A2 : bool;
  CYW43012C0 : bool;
  ADC_INPUT_VDDIO_defined : bool
}.

(** Line 63. *)
Definition DEVICE_SUPPORTS_FULL_ADC_API (b : build) : bool :=
  (CYW20819 b || CYW20820 b)%bool.

(** Line 66. *)
Definition AVG_NUM_OF_SAMPLES : Z := 3.

(** The channels the file samples (lines 213-218). *)
Inductive ADC_INPUT_CHANNEL_SEL : Type :=
| ADC_INPUT_P0
| ADC_INPUT_ADC_BGREF
| ADC_INPUT_VDDIO
| ADC_INPUT_VDD_CORE.

(** What the file takes from the vendor headers and cannot be read off
    it: the values the ADC driver returns for a channel (the raw sample
    with the number of samples to average, where the driver takes one)
    and how the trace renders a [%d]. *)
Record vendor : Type := {
  wiced_hal_adc_read_voltage : ADC_INPUT_CHANNEL_SEL -> Z;
  wiced_hal_adc_read_raw_sample : ADC_INPUT_CHANNEL_SEL -> option Z -> Z;
  format_d : Z -> string
}.

Definition set_puart (d : device) (p : list string) : device :=
  {| adc_ground_offset := adc_ground_offset d;
     adc_reference_reading := adc_reference_reading d;
     adc_reference_micro_volts := adc_reference_micro_volts d;
     seconds_timer := seconds_timer d;
     puart := p |}.

Notation "m ;;; k" := (bind m (fun _ => k))
  (at level 61, right associativity).

(** One [WICED_BT_TRACE] call: its text is added at the end of the
    output. *)
Definition WICED_BT_TRACE (text : string) : hal unit :=
  fun d => (Returns tt, set_puart d (puart d ++ [text])).

Definition skip : hal unit := lift (Returns tt).

Definition TAB : string := String "009"%char EmptyString.
Definition LF : string := String "010"%char EmptyString.
Definition CR : string := String "013"%char EmptyString.
Definition CRLF : string := (CR ++ LF)%string.

(** Lines 77-79: [for (int i = 0; i < N; i++) WICED_BT_TRACE ("*")], by
    the number of rounds left. *)
Fixpoint asterisks (rounds : nat) : hal unit :=
  match rounds with
  | O => skip
  | S rounds' => WICED_BT_TRACE "*" ;;; asterisks rounds'
  end.

(** Lines 75-80. *)
Definition PRINT_N_ASTERISKS (N : Z) : hal unit :=
  WICED_BT_TRACE CRLF ;;;
  asterisks (Z.to_nat N) ;;;
  WICED_BT_TRACE CRLF.

(** Lines 249-253: the raw sample of a channel, with the driver call the
    build selects. *)
Definition read_sign_raw_val (b : build) (v : vendor)
  (channel : ADC_INPUT_CHANNEL_SEL) : Z :=
  if (CYW20706A2 b || CYW43012C0 b)%bool
  then wiced_hal_adc_read_raw_sample v channel None
  else wiced_hal_adc_read_raw_sample v channel (Some AVG_NUM_OF_SAMPLES).

(** The texts of lines 258, 260, 261 and 263-264, with the value shown
    put in place. *)
Definition channel_line (channel_name : string) : string :=
  "ADC Channel: " ++ channel_name ++ CRLF.
Definition raw_sample_line (v : vendor) (sign_raw_val : Z) : string :=
  "Signed Raw Sample value" ++ TAB ++ TAB ++ TAB ++ TAB ++ ": "
  ++ format_d v sign_raw_val ++ CRLF.
Definition fw_voltage_line (v : vendor) (voltage_val : Z) : string :=
  "FW Voltage value(in mV)" ++ TAB ++ TAB ++ TAB ++ TAB ++ ": "
  ++ format_d v voltage_val ++ CRLF.
Definition converted_line (v : vendor) (conv_val : Z) : string :=
  "Voltage equivalent of received sample(in mV)" ++ TAB ++ ": "
  ++ format_d v conv_val ++ CRLF.

(** Lines 235-269.  The locals start at 0 and are assigned before they
    are read; [conv_val], its assignment and its line exist on the
    full-API devices only. *)
Definition adc_readings (b : build) (v : vendor)
  (channel : ADC_INPUT_CHANNEL_SEL) (channel_name : string) : hal unit :=
  let voltage_val := wiced_hal_adc_read_voltage v channel in
  let sign_raw_val := read_sign_raw_val b v channel in
  if DEVICE_SUPPORTS_FULL_ADC_API b then
    mvolt <- convert_adc_raw_to_mvolt sign_raw_val ;;
    let conv_val := to_int16 mvolt in
    WICED_BT_TRACE (channel_line channel_name) ;;;
    WICED_BT_TRACE (raw_sample_line v sign_raw_val) ;;;
    WICED_BT_TRACE (fw_voltage_line v voltage_val) ;;;
    WICED_BT_TRACE (converted_line v conv_val) ;;;
    WICED_BT_TRACE CRLF
  else
    WICED_BT_TRACE (channel_line channel_name) ;;;
    WICED_BT_TRACE (raw_sample_line v sign_raw_val) ;;;
    WICED_BT_TRACE (fw_voltage_line v voltage_val) ;;;
    WICED_BT_TRACE CRLF.

(** Lines 208-220; [GET_VARIABLE_NAME] turns the channel's name into a
    string. *)
Definition seconds_app_timer_cb (b : build) (v : vendor) (arg : Z)
  : hal unit :=
  PRINT_N_ASTERISKS 70 ;;;
  adc_readings b v ADC_INPUT_P0 "ADC_INPUT_P0" ;;;
  adc_readings b v ADC_INPUT_ADC_BGREF "ADC_INPUT_ADC_BGREF" ;;;
  (if ADC_INPUT_VDDIO_defined b
   then adc_readings b v ADC_INPUT_VDDIO "ADC_INPUT_VDDIO"
   else skip) ;;;
  adc_readings b v ADC_INPUT_VDD_CORE "ADC_INPUT_VDD_CORE".

(** The channels the timer callback reports, in its order. *)
Definition sampled_channels (b : build) : list ADC_INPUT_CHANNEL_SEL :=
  [ADC_INPUT_P0; ADC_INPUT_ADC_BGREF]
  ++ (if ADC_INPUT_VDDIO_defined b then [ADC_INPUT_VDDIO] else [])
  ++ [ADC_INPUT_VDD_CORE].

(** Line 83: [GET_VARIABLE_NAME (x)] is the text of [x]. *)
Definition GET_VARIABLE_NAME (channel : ADC_INPUT_CHANNEL_SEL) : string :=
  match channel with
  | ADC_INPUT_P0 => "ADC_INPUT_P0"
  | ADC_INPUT_ADC_BGREF => "ADC_INPUT_ADC_BGREF"
  | ADC_INPUT_VDDIO => "ADC_INPUT_VDDIO"
  | ADC_INPUT_VDD_CORE => "ADC_INPUT_VDD_CORE"
  end.

(** The reports of a list of channels, one after the other; the timer
    callback is shown below to be the separator followed by the reports
    of [sampled_channels]. *)
Fixpoint report_all (b : build) (v : vendor)
  (channels : list ADC_INPUT_CHANNEL_SEL) : hal unit :=
  match channels with
  | [] => skip
  | channel :: rest =>
      adc_readings b v channel (GET_VARIABLE_NAME channel) ;;;
      report_all b v rest
  end.

(** The channels reported before the first one whose report faults on a
    zero span: those at the head of the list whose raw sample is 0. *)
Fixpoint zero_prefix (b : build) (v : vendor)
  (channels : list ADC_INPUT_CHANNEL_SEL) : list ADC_INPUT_CHANNEL_SEL :=
  match channels with
  | [] => []
  | channel :: rest =>
      if read_sign_raw_val b v channel =? 0
      then channel :: zero_prefix b v rest
      else []
  end.

(** The report of a channel faults: the conversion is compiled in, the
    raw sample is not 0 and the span is 0. *)
Definition report_faults (b : build) (v : vendor) (d : device)
  (channel : ADC_INPUT_CHANNEL_SEL) : bool :=
  (DEVICE_SUPPORTS_FULL_ADC_API b
   && negb (read_sign_raw_val b v channel =? 0)
   && (span (adc_ground_offset d) (adc_reference_reading d) =? 0))%bool.

(** The channels of a list up to the first one whose report faults. *)
Fixpoint reported (b : build) (v : vendor) (d : device)
  (channels : list ADC_INPUT_CHANNEL_SEL) : list ADC_INPUT_CHANNEL_SEL :=
  match channels with
  | [] => []
  | channel :: rest =>
      if report_faults b v d channel then []
      else channel :: reported b v d rest
  end.

(** The converted value a report shows. *)
Definition shown_conv_val (b : build) (v : vendor) (d : device)
  (channel : ADC_INPUT_CHANNEL_SEL) : Z :=
  match convert (read_sign_raw_val b v channel) (adc_ground_offset d)
                (adc_reference_reading d) (adc_reference_micro_volts d) with
  | Returns mvolt => to_int16 mvolt
  | DivideByZero => 0
  end.

(** The lines of a complete report. *)
Definition channel_report (b : build) (v : vendor) (d : device)
  (channel : ADC_INPUT_CHANNEL_SEL) : list string :=
  [channel_line (GET_VARIABLE_NAME channel);
   raw_sample_line v (read_sign_raw_val b v channel);
   fw_voltage_line v (wiced_hal_adc_read_voltage v channel)]
  ++ (if DEVICE_SUPPORTS_FULL_ADC_API b
      then [converted_line v (shown_conv_val b v d channel)] else [])
  ++ [CRLF].

(** The separator of line 211. *)
Definition separator : list string :=
  CRLF :: repeat "*"%string 70 ++ [CRLF].

(** The number of trace calls of one channel report. *)
Definition lines_per_channel (b : build) : nat :=
  if DEVICE_SUPPORTS_FULL_ADC_API b then 5%nat else 4%nat.

(** The calibration values and the timer of two devices agree. *)
Definition same_settings (d d' : device) : Prop :=
  adc_ground_offset d' = adc_ground_offset d /\
  adc_reference_reading d' = adc_reference_reading d /\
  adc_reference_micro_volts d' = adc_reference_micro_volts d /\
  seconds_timer d' = seconds_timer d.

(** ** Sample configurations

    A build, a driver and a device to run the functions on. *)

(** [%d] as the decimal numeral. *)
Definition decimal (z : Z) : string := NilZero.string_of_int (Z.to_int z).

Definition sample_build (full_api vddio : bool) : build :=
  {| CYW20819 := full_api; CYW20820 := false; CYW20706A2 := false;
     CYW43012C0 := false; ADC_INPUT_VDDIO_defined := vddio |}.

Definition sample_vendor (raw : ADC_INPUT_CHANNEL_SEL -> Z) : vendor :=
  {| wiced_hal_adc_read_voltage := fun _ => 1800;
     wiced_hal_adc_read_raw_sample := fun channel _ => raw channel;
     format_d := decimal |}.

Definition sample_device (gnd ref mvolts : Z) : device :=
  {| adc_ground_offset := gnd; adc_reference_reading := ref;
     adc_reference_micro_volts := mvolts;
     seconds_timer := None; puart := [] |}.

(** Unfolds the range predicates down to linear arithmetic. *)
Ltac ranges :=
  unfold well_typed, no_overflow, in_int16, in_int32, in_uint32 in *;
  change (2 ^ 15) with 32768 in *;
  change (2 ^ 31) with 2147483648 in *;
  change (2 ^ 32) with 4294967296 in *.

(** ** Sample runs *)

Example convert_sample :
  convert 600 100 1100 1000 = Returns 500.
Proof. reflexivity. Qed.

Example convert_below_ground :
  convert 50 100 1100 1000 = Returns 0.
Proof. reflexivity. Qed.

(** ** Fixed-width arithmetic: basic facts *)

Lemma to_int32_range z : in_int32 (to_int32 z).
Proof.
  unfold to_int32. ranges.
  pose proof (Z.mod_pos_bound (z + 2147483648) 4294967296). lia.
Qed.

Lemma to_int32_small z : in_int32 z -> to_int32 z = z.
Proof.
  unfold to_int32. ranges. intros H.
  rewrite Z.mod_small; lia.
Qed.

Lemma to_uint32_range z : in_uint32 (to_uint32 z).
Proof.
  unfold to_uint32. ranges. apply Z.mod_pos_bound. lia.
Qed.

Lemma to_uint32_small z : in_uint32 z -> to_uint32 z = z.
Proof.
  unfold to_uint32. ranges. intros H. apply Z.mod_small. lia.
Qed.

(** [to_int32] only depends on its argument modulo 2^32 ... *)
Lemma to_int32_congr a b :
  a mod 2 ^ 32 = b mod 2 ^ 32 -> to_int32 a = to_int32 b.
Proof.
  intros H. unfold to_int32.
  rewrite <- (Zplus_mod_idemp_l a), H, Zplus_mod_idemp_l. reflexivity.
Qed.

(** ... and is congruent to it. *)
Lemma to_int32_mod z : to_int32 z mod 2 ^ 32 = z mod 2 ^ 32.
Proof.
  unfold to_int32.
  rewrite Zminus_mod_idemp_l. f_equal. lia.
Qed.

Lemma to_uint32_mod z : to_uint32 z mod 2 ^ 32 = z mod 2 ^ 32.
Proof. unfold to_uint32. apply Z.mod_mod. ranges. lia. Qed.

Lemma to_uint32_to_int32 z : to_uint32 (to_int32 z) = to_uint32 z.
Proof. unfold to_uint32. apply to_int32_mod. Qed.

Lemma to_int32_zero_iff z :
  - 2 ^ 32 < z < 2 ^ 32 -> (to_int32 z = 0 <-> z = 0).
Proof.
  intros H. split.
  - intros E. pose proof (to_int32_mod z) as Hm. rewrite E in Hm.
    change (0 mod 2 ^ 32) with 0 in Hm. symmetry in Hm.
    apply Z.mod_divide in Hm; [| ranges; lia].
    destruct Hm as [q Hq]. ranges. lia.
  - intros ->. reflexivity.
Qed.

Lemma span_range g r : in_int32 (span g r).
Proof. apply to_int32_range. Qed.

Lemma span_exact g r : in_int32 (r - g) -> span g r = r - g.
Proof. apply to_int32_small. Qed.

Lemma span_zero_iff g r :
  in_int32 g -> in_int32 r -> (span g r = 0 <-> r = g).
Proof.
  intros Hg Hr. unfold span, int32_sub.
  rewrite to_int32_zero_iff; [lia | ranges; lia].
Qed.

(** The arithmetic shift by one is the floor of the half. *)
Lemma shiftr_1 z : Z.shiftr z 1 = z / 2.
Proof. rewrite Z.shiftr_div_pow2 by lia. reflexivity. Qed.

Lemma rounding_bias_div g r : rounding_bias g r = span g r / 2.
Proof. unfold rounding_bias, int32_shr. apply shiftr_1. Qed.

Lemma rounding_bias_range g r : in_int32 (rounding_bias g r).
Proof.
  rewrite rounding_bias_div. pose proof (span_range g r) as H.
  ranges. split.
  - apply Z.div_le_lower_bound; lia.
  - apply Z.div_lt_upper_bound; lia.
Qed.

(** ** The shape of the result *)

Lemma convert_zero g r u : convert 0 g r u = Returns 0.
Proof. reflexivity. Qed.

Lemma convert_nonzero raw g r u :
  raw <> 0 ->
  convert raw g r u =
    match int32_div (biased raw g r u) (span g r) with
    | None => DivideByZero
    | Some mvolt => Returns (to_uint32 mvolt)
    end.
Proof.
  intros H. unfold convert.
  destruct (Z.eqb_spec raw 0); [contradiction | reflexivity].
Qed.

Lemma convert_fault_span raw g r u :
  convert raw g r u = DivideByZero <-> raw <> 0 /\ span g r = 0.
Proof.
  unfold convert, int32_div.
  destruct (Z.eqb_spec raw 0) as [-> | Hraw].
  - split; [discriminate | intros [H _]; contradiction].
  - destruct (Z.eqb_spec (span g r) 0) as [Hs | Hs].
    + split; auto.
    + split; [discriminate | intros [_ H]; contradiction].
Qed.

Lemma convert_returns raw g r u :
  raw <> 0 -> span g r <> 0 ->
  convert raw g r u =
    Returns (to_uint32 (Z.quot (biased raw g r u) (span g r))).
Proof.
  intros Hraw Hs. rewrite convert_nonzero by assumption.
  unfold int32_div. destruct (Z.eqb_spec (span g r) 0); [contradiction |].
  rewrite to_uint32_to_int32. reflexivity.
Qed.

(** ** The computation modulo 2^32 and over the integers *)

Lemma clamp_max raw g : (if raw <? g then g else raw) = Z.max raw g.
Proof. destruct (Z.ltb_spec raw g); lia. Qed.

(** The value divided on line 304 is the integer formula, wrapped once. *)
Lemma biased_wrapped raw g r u :
  biased raw g r u =
    to_int32 ((Z.max raw g - g) * u + Z.shiftr (span g r) 1).
Proof.
  unfold biased, scaled, delta, rounding_bias, int32_add, int32_sub,
    int32_mul_uint32, int32_shr.
  cbv zeta. rewrite clamp_max.
  apply to_int32_congr.
  rewrite <- Zplus_mod_idemp_l, to_int32_mod, to_uint32_mod.
  rewrite <- Zmult_mod_idemp_l, to_uint32_mod, to_int32_mod.
  rewrite Zmult_mod_idemp_l, Zplus_mod_idemp_l. reflexivity.
Qed.

Lemma biased_exact raw g r u :
  no_overflow raw g r u ->
  biased raw g r u = (Z.max raw g - g) * u + Z.shiftr (r - g) 1.
Proof.
  intros [Hs Hx]. rewrite biased_wrapped, span_exact by assumption.
  apply to_int32_small. assumption.
Qed.

(** With a positive span and no overflow the result is the floor of the
    biased quotient. *)
Lemma convert_exact raw g r u :
  raw <> 0 -> g < r -> 0 <= u -> no_overflow raw g r u ->
  convert raw g r u =
    Returns (((Z.max raw g - g) * u + (r - g) / 2) / (r - g)).
Proof.
  intros Hraw Hgr Hu Hno.
  pose proof Hno as [Hs Hx].
  rewrite convert_returns; [| assumption | rewrite span_exact by assumption; lia].
  rewrite biased_exact, span_exact, shiftr_1 by assumption.
  rewrite shiftr_1 in Hx.
  assert (0 <= (r - g) / 2) by (apply Z.div_pos; lia).
  assert (0 <= (Z.max raw g - g) * u) by (apply Z.mul_nonneg_nonneg; lia).
  rewrite Z.quot_div_nonneg by lia.
  f_equal. apply to_uint32_small.
  ranges. split.
  - apply Z.div_pos; lia.
  - apply Z.div_lt_upper_bound; nia.
Qed.

(** At the ground reading and below, the quotient is the bias over the
    span. *)
Lemma biased_at_ground raw g r u :
  raw <= g -> biased raw g r u = rounding_bias g r.
Proof.
  intros H. rewrite biased_wrapped.
  replace (Z.max raw g) with g by lia.
  rewrite Z.sub_diag, Z.mul_0_l, Z.add_0_l.
  apply to_int32_small. apply rounding_bias_range.
Qed.

Lemma bias_over_span s :
  s <> 0 -> s <> -1 -> Z.quot (s / 2) s = 0.
Proof.
  intros H0 H1.
  destruct (Z.lt_ge_cases 0 s) as [Hpos | Hneg].
  - apply Z.quot_small. split.
    + apply Z.div_pos; lia.
    + apply Z.div_lt_upper_bound; lia.
  - assert (Hs : s <= -2) by lia.
    rewrite <- (Z.quot_opp_opp (s / 2) s) by lia.
    apply Z.quot_small. split.
    + assert (s / 2 < 0) by (apply Z.div_lt_upper_bound; lia). lia.
    + assert (s < (s / 2)) ; [| lia].
      pose proof (Z.div_mod s 2 ltac:(lia)).
      pose proof (Z.mod_pos_bound s 2 ltac:(lia)). lia.
Qed.

Lemma convert_at_ground raw g r u :
  raw <> 0 -> raw <= g -> span g r <> 0 -> span g r <> -1 ->
  convert raw g r u = Returns 0.
Proof.
  intros Hraw Hle H0 H1.
  rewrite convert_returns by assumption.
  rewrite biased_at_ground, rounding_bias_div by assumption.
  rewrite bias_over_span by assumption. reflexivity.
Qed.

(** ** Properties of the conversion *)

(** *** The zero-span fault *)

(** C1, as stated, does not hold: a call with
    [reference_reading = ground_offset] need not fault.  The sample 0
    returns 0 on line 293, before the division. *)
Lemma zero_span_zero_sample_returns :
  ~ (forall raw g r u,
        well_typed raw g r u -> r = g ->
        convert raw g r u = DivideByZero).
Proof.
  intros H. specialize (H 0 5 5 1000).
  assert (Hwt : well_typed 0 5 5 1000) by (ranges; lia).
  specialize (H Hwt eq_refl). discriminate H.
Qed.

(** C1 (amended): the conversion fails with the divide-by-zero fault
    exactly when the reference reading equals the ground offset and the
    raw sample is not 0; no other test stands between a zero span and
    the division. *)
Theorem convert_faults_iff raw g r u :
  in_int32 g -> in_int32 r ->
  (convert raw g r u = DivideByZero <-> raw <> 0 /\ r = g).
Proof.
  intros Hg Hr. rewrite convert_fault_span, span_zero_iff by assumption.
  reflexivity.
Qed.

Lemma convert_faults_iff_witness :
  in_int32 7 /\ in_int32 7 /\ convert 600 7 7 1000 = DivideByZero.
Proof.
  assert (H7 : in_int32 7) by (unfold in_int32; lia).
  split; [exact H7 | split; [exact H7 |]].
  apply (convert_faults_iff 600 7 7 1000 H7 H7).
  split; [lia | reflexivity].
Defined.

(** *** The worked example *)

(** C2: with ground offset 100, reference reading 1100, reference value
    1000 and raw sample 600, the local [mvolt] is 500 after the
    subtraction, 500000 after the scaling, 500500 after the bias 500 is
    added, it is divided by 1000, and the function returns 500. *)
Theorem convert_worked_example :
  delta 600 100 = 500 /\
  scaled 600 100 1000 = 500000 /\
  rounding_bias 100 1100 = 500 /\
  biased 600 100 1100 1000 = 500500 /\
  span 100 1100 = 1000 /\
  convert 600 100 1100 1000 = Returns 500.
Proof. repeat split; reflexivity. Qed.

(** *** The zero-sample shortcut *)

(** C3: a raw sample of 0 converts to 0 whatever the calibration values
    are, and so does the whole function on any device. *)
Theorem zero_sample_shortcut g r u d :
  convert 0 g r u = Returns 0 /\
  convert_adc_raw_to_mvolt 0 d = (Returns 0, d).
Proof. split; reflexivity. Qed.

(** C9: the sample 0 returns 0 without dividing, also when the reference
    reading equals the ground offset; a call that faults has a non-zero
    sample, and a non-zero sample gets the result of the division. *)
Theorem zero_sample_skips_division g r u :
  convert 0 g r u = Returns 0 /\
  convert 0 g g u = Returns 0 /\
  (forall raw, convert raw g r u = DivideByZero -> raw <> 0) /\
  (forall raw, raw <> 0 ->
     convert raw g r u =
       match int32_div (biased raw g r u) (span g r) with
       | None => DivideByZero
       | Some mvolt => Returns (to_uint32 mvolt)
       end).
Proof.
  repeat split.
  - intros raw H. apply convert_fault_span in H. tauto.
  - intros raw H. apply convert_nonzero. assumption.
Qed.

Lemma zero_sample_skips_division_witness :
  convert 0 7 7 1000 = Returns 0 /\
  convert 600 7 7 1000 = DivideByZero /\ 600 <> 0 /\
  convert 600 100 1100 1000 = Returns 500.
Proof.
  pose proof (zero_sample_skips_division 7 7 1000) as [_ [H0 [Hf _]]].
  pose proof (zero_sample_skips_division 100 1100 1000) as [_ [_ [_ Hd]]].
  split; [exact H0 |].
  split; [reflexivity |].
  split; [apply (Hf 600); reflexivity |].
  rewrite (Hd 600); [reflexivity | lia].
Defined.

(** *** Clamping below the ground reading *)

Lemma span_not_degenerate g r :
  0 < r - g < 2 ^ 32 - 1 -> span g r <> 0 /\ span g r <> -1.
Proof.
  unfold span, int32_sub, to_int32. ranges. intros H.
  Z.div_mod_to_equations. lia.
Qed.

(** C4, as stated, does not hold: the raw sample 0 lies below the ground
    offset 5 and converts to 0 by the shortcut, while the ground offset
    itself goes through the calibration arithmetic, which with the
    reference reading 4 (span -1) gives 1. *)
Lemma sub_ground_zero_sample_differs :
  ~ (forall raw g r u,
        well_typed raw g r u -> in_int16 g -> raw < g ->
        convert raw g r u = convert g g r u).
Proof.
  intros H. specialize (H 0 5 4 1000).
  assert (Hwt : well_typed 0 5 4 1000) by (ranges; lia).
  assert (Hg : in_int16 5) by (ranges; lia).
  specialize (H Hwt Hg ltac:(lia)). discriminate H.
Qed.

(** C4 (amended): a raw sample strictly below the ground offset converts
    to the same result as the ground offset itself whenever the
    reference reading is above the ground offset, and also for other
    reference readings as long as neither the sample nor the ground
    offset is 0 (the value the shortcut of line 291 takes away). *)
Theorem sub_ground_clamped raw g r u :
  in_int16 raw -> in_int32 r -> raw < g ->
  (raw <> 0 /\ g <> 0) \/ g < r ->
  convert raw g r u = convert g g r u.
Proof.
  intros Hraw Hr Hlt Hcase.
  assert (Hsame : raw <> 0 -> g <> 0 -> convert raw g r u = convert g g r u).
  { intros H1 H2. rewrite !convert_nonzero by assumption.
    rewrite !biased_at_ground by lia. reflexivity. }
  destruct Hcase as [[H1 H2] | Hgr]; [auto |].
  assert (Hs : span g r <> 0 /\ span g r <> -1).
  { apply span_not_degenerate. ranges. lia. }
  destruct Hs as [Hs0 Hs1].
  destruct (Z.eq_dec raw 0) as [-> | H1].
  - rewrite convert_zero. symmetry. apply convert_at_ground; lia.
  - destruct (Z.eq_dec g 0) as [-> | H2]; [| auto].
    rewrite convert_zero. apply convert_at_ground; lia.
Qed.

Lemma sub_ground_clamped_witness :
  in_int16 50 /\ in_int32 1100 /\ 50 < 100 /\
  convert 50 100 1100 1000 = convert 100 100 1100 1000.
Proof.
  assert (H1 : in_int16 50) by (unfold in_int16; lia).
  assert (H2 : in_int32 1100) by (unfold in_int32; lia).
  assert (H3 : 50 < 100) by lia.
  split; [exact H1 | split; [exact H2 | split; [exact H3 |]]].
  apply (sub_ground_clamped 50 100 1100 1000 H1 H2 H3).
  right. lia.
Defined.

(** *** Monotonicity *)

(** C5, as stated, does not hold: with the ground offset -100 and the
    reference reading 900, the raw sample -1 converts to 99 and the
    larger raw sample 0 to 0, by the shortcut. *)
Lemma zero_sample_breaks_monotonicity :
  ~ (forall raw1 raw2 g r u,
        well_typed raw1 g r u -> well_typed raw2 g r u ->
        g < r -> raw1 <= raw2 ->
        outcome_le (convert raw1 g r u) (convert raw2 g r u)).
Proof.
  intros H. specialize (H (-1) 0 (-100) 900 1000).
  assert (H1 : well_typed (-1) (-100) 900 1000) by (ranges; lia).
  assert (H2 : well_typed 0 (-100) 900 1000) by (ranges; lia).
  specialize (H H1 H2 ltac:(lia) ltac:(lia)).
  vm_compute in H. apply H. reflexivity.
Qed.

(** Wrap-around breaks monotonicity as well: 1 * 2^31 and 2 * 2^31 do
    not fit in 32 bits. *)
Example wrap_breaks_monotonicity :
  convert 1 0 1 (2 ^ 31) = Returns (2 ^ 31) /\
  convert 2 0 1 (2 ^ 31) = Returns 0.
Proof. split; reflexivity. Qed.

Lemma no_overflow_smaller raw1 raw2 g r u :
  g < r -> 0 <= u -> raw1 <= raw2 ->
  no_overflow raw2 g r u -> no_overflow raw1 g r u.
Proof.
  intros Hgr Hu Hle [Hs Hx]. split; [assumption |].
  rewrite shiftr_1 in *.
  assert (0 <= (r - g) / 2) by (apply Z.div_pos; lia).
  assert ((Z.max raw1 g - g) * u <= (Z.max raw2 g - g) * u)
    by (apply Z.mul_le_mono_nonneg_r; lia).
  assert (0 <= (Z.max raw1 g - g) * u)
    by (apply Z.mul_nonneg_nonneg; lia).
  ranges. lia.
Qed.

(** C5 (amended): for a reference reading above the ground offset, the
    conversion is non-decreasing in the raw sample as long as the
    computation for the larger sample does not overflow 32 bits and the
    larger sample is not the 0 of the shortcut lying above a negative
    ground offset. *)
Theorem convert_monotone raw1 raw2 g r u :
  well_typed raw1 g r u -> well_typed raw2 g r u ->
  g < r -> raw1 <= raw2 ->
  raw2 <> 0 \/ 0 <= g ->
  no_overflow raw2 g r u ->
  exists v1 v2,
    convert raw1 g r u = Returns v1 /\
    convert raw2 g r u = Returns v2 /\
    v1 <= v2.
Proof.
  intros Hwt1 Hwt2 Hgr Hle Hzero Hno2.
  assert (Hu : 0 <= u) by (ranges; lia).
  pose proof (no_overflow_smaller raw1 raw2 g r u Hgr Hu Hle Hno2) as Hno1.
  assert (Hspan : span g r = r - g) by (apply span_exact, Hno2).
  assert (Hh : 0 <= (r - g) / 2) by (apply Z.div_pos; lia).
  destruct (Z.eq_dec raw2 0) as [-> | Hr2].
  - (* the larger sample is the shortcut: the ground offset is not negative *)
    exists 0, 0. split; [| split; [reflexivity | lia]].
    destruct (Z.eq_dec raw1 0) as [-> | Hr1]; [reflexivity |].
    apply convert_at_ground; rewrite ?Hspan; lia.
  - rewrite (convert_exact raw2 g r u) by assumption.
    assert (H2 : 0 <= (Z.max raw2 g - g) * u)
      by (apply Z.mul_nonneg_nonneg; lia).
    destruct (Z.eq_dec raw1 0) as [-> | Hr1].
    + exists 0. eexists. split; [reflexivity | split; [reflexivity |]].
      apply Z.div_pos; lia.
    + rewrite (convert_exact raw1 g r u) by assumption.
      eexists. eexists. split; [reflexivity | split; [reflexivity |]].
      apply Z.div_le_mono; [lia |].
      assert ((Z.max raw1 g - g) * u <= (Z.max raw2 g - g) * u)
        by (apply Z.mul_le_mono_nonneg_r; lia).
      lia.
Qed.

Lemma convert_monotone_witness :
  convert 300 100 1100 1000 = Returns 200 /\
  convert 600 100 1100 1000 = Returns 500 /\
  200 <= 500.
Proof.
  assert (H1 : well_typed 300 100 1100 1000) by (ranges; lia).
  assert (H2 : well_typed 600 100 1100 1000) by (ranges; lia).
  assert (Hno : no_overflow 600 100 1100 1000)
    by (split; split; vm_compute; (discriminate || reflexivity)).
  destruct (convert_monotone 300 600 100 1100 1000 H1 H2
              ltac:(lia) ltac:(lia) ltac:(left; lia) Hno)
    as (v1 & v2 & E1 & E2 & Hv).
  vm_compute in E1, E2.
  injection E1 as <-. injection E2 as <-.
  split; [reflexivity | split; [reflexivity | exact Hv]].
Defined.

(** *** The rounding bias *)

Lemma round_half_up_spec x s :
  0 < s ->
  2 * x - s < 2 * s * round_half_up x s <= 2 * x + s.
Proof.
  intros Hs. unfold round_half_up.
  pose proof (Z.div_mod (2 * x + s) (2 * s) ltac:(lia)).
  pose proof (Z.mod_pos_bound (2 * x + s) (2 * s) ltac:(lia)).
  lia.
Qed.

(** Adding the floor of the half span before a floor division rounds to
    the nearest integer, halves upward. *)
Lemma biased_quotient_rounds x s :
  0 < s -> (x + s / 2) / s = round_half_up x s.
Proof.
  intros Hs. unfold round_half_up.
  pose proof (Z.div_mod s 2 ltac:(lia)) as Hh.
  pose proof (Z.mod_pos_bound s 2 ltac:(lia)) as Hm.
  pose proof (Z.div_mod (x + s / 2) s ltac:(lia)) as Hq.
  pose proof (Z.mod_pos_bound (x + s / 2) s Hs) as Hr.
  set (h := s / 2) in *. set (q := (x + h) / s) in *.
  apply Z.div_unique with (r := 2 * ((x + h) mod s) + s mod 2); lia.
Qed.

(** C6, as stated, does not hold: for the negative, odd span -3 the
    value divided on line 304 is the scaled delta plus [-3 >> 1 = -2],
    where the truncating division of the specification gives -1. *)
Lemma rounding_bias_is_not_truncating :
  ~ (forall raw g r u,
        well_typed raw g r u -> raw <> 0 ->
        biased raw g r u =
          int32_add (scaled raw g u) (spec_rounding_bias g r)).
Proof.
  intros H. specialize (H 4 0 (-3) 1).
  assert (Hwt : well_typed 4 0 (-3) 1) by (ranges; lia).
  specialize (H Hwt ltac:(lia)). discriminate H.
Qed.

(** The difference shows in the result: 4 - 2 = 2 divided by -3 is 0,
    whereas 4 - 1 = 3 divided by -3 would be -1. *)
Example rounding_bias_shows_in_result :
  convert 4 0 (-3) 1 = Returns 0 /\
  to_uint32 (Z.quot (scaled 4 0 1 + spec_rounding_bias 0 (-3)) (span 0 (-3)))
    = 2 ^ 32 - 1.
Proof. split; reflexivity. Qed.

(** C6 (amended): on the path past the shortcut, the value divided on
    line 304 is the scaled delta plus the 32-bit span
    ([reference_reading - ground_offset] wrapped to [INT32]) shifted
    right by one bit, that is the floor of its half, and the result is
    the quotient of that sum by the span; the bias is the truncated half
    of [reference_reading - ground_offset] whenever
    [0 <= reference_reading - ground_offset < 2^31]; and with a positive
    span and no overflow the result is the scaled delta over the span,
    rounded to the nearest integer with halves upward. *)
Theorem rounding_bias_half_span raw g r u :
  well_typed raw g r u -> raw <> 0 ->
  biased raw g r u = int32_add (scaled raw g u) (span g r / 2) /\
  (r <> g ->
     convert raw g r u =
       Returns (to_uint32
                  (Z.quot (int32_add (scaled raw g u) (span g r / 2))
                          (span g r)))) /\
  (0 <= r - g < 2 ^ 31 ->
     biased raw g r u =
       int32_add (scaled raw g u) (spec_rounding_bias g r)) /\
  (g < r -> no_overflow raw g r u ->
     convert raw g r u =
       Returns (round_half_up ((Z.max raw g - g) * u) (r - g)) /\
     2 * ((Z.max raw g - g) * u) - (r - g)
       < 2 * (r - g) * round_half_up ((Z.max raw g - g) * u) (r - g)
       <= 2 * ((Z.max raw g - g) * u) + (r - g)).
Proof.
  intros Hwt Hraw.
  assert (Hb : biased raw g r u
               = int32_add (scaled raw g u) (span g r / 2)).
  { unfold biased. rewrite rounding_bias_div. reflexivity. }
  split; [exact Hb |]. split; [| split].
  - intros Hrg.
    assert (Hs : span g r <> 0).
    { destruct Hwt as (_ & Hg & Hr & _). rewrite span_zero_iff; assumption. }
    rewrite convert_returns, Hb by assumption. reflexivity.
  - intros Hfit. rewrite Hb.
    assert (Hs : span g r = r - g) by (apply span_exact; ranges; lia).
    rewrite Hs. unfold spec_rounding_bias.
    rewrite Z.quot_div_nonneg by lia. reflexivity.
  - intros Hlt Hno. split.
    + rewrite convert_exact;
        [| assumption | assumption | ranges; lia | assumption].
      rewrite biased_quotient_rounds by lia. reflexivity.
    + apply round_half_up_spec. lia.
Qed.

Lemma rounding_bias_half_span_witness :
  biased 600 100 1103 1000 = 500501 /\
  spec_rounding_bias 100 1103 = 501 /\
  convert 600 100 1103 1000 = Returns 499 /\
  round_half_up 500000 1003 = 499.
Proof.
  assert (Hwt : well_typed 600 100 1103 1000) by (ranges; lia).
  assert (Hno : no_overflow 600 100 1103 1000)
    by (split; split; vm_compute; (discriminate || reflexivity)).
  assert (Hfit : 0 <= 1103 - 100 < 2 ^ 31)
    by (split; vm_compute; (discriminate || reflexivity)).
  destruct (rounding_bias_half_span 600 100 1103 1000 Hwt ltac:(lia))
    as (H1 & H2 & H3 & H4).
  destruct (H4 ltac:(lia) Hno) as [H5 _].
  split; [rewrite (H3 Hfit); reflexivity |].
  split; [reflexivity |].
  split; [rewrite (H2 ltac:(lia)); reflexivity |].
  reflexivity.
Defined.

(** *** Scaling with the reference value *)

(** C7, as stated, does not hold: with span 3 and delta 1, the reference
    value 1 gives (1 + 1) / 3 = 0 and its double 2 gives (2 + 1) / 3 = 1,
    not 2 * 0. *)
Lemma rounding_breaks_linearity :
  ~ (forall raw g r u k,
        well_typed raw g r u -> well_typed raw g r (k * u) ->
        scales_by k (convert raw g r u) (convert raw g r (k * u))).
Proof.
  intros H. specialize (H 1 0 3 1 2).
  assert (H1 : well_typed 1 0 3 1) by (ranges; lia).
  assert (H2 : well_typed 1 0 3 (2 * 1)) by (ranges; lia).
  specialize (H H1 H2). vm_compute in H. discriminate H.
Qed.

Lemma scaled_quotient_bound x s k :
  0 < s -> 0 <= x -> 0 <= k ->
  2 * Z.abs ((k * x + s / 2) / s - k * ((x + s / 2) / s)) <= k + 1.
Proof.
  intros Hs Hx Hk.
  pose proof (Z.div_mod s 2 ltac:(lia)) as Hh.
  pose proof (Z.mod_pos_bound s 2 ltac:(lia)) as Hm.
  pose proof (Z.div_mod (x + s / 2) s ltac:(lia)) as H1.
  pose proof (Z.mod_pos_bound (x + s / 2) s Hs) as R1.
  pose proof (Z.div_mod (k * x + s / 2) s ltac:(lia)) as Hk1.
  pose proof (Z.mod_pos_bound (k * x + s / 2) s Hs) as Rk.
  set (h := s / 2) in *.
  set (q1 := (x + h) / s) in *. set (r1 := (x + h) mod s) in *.
  set (qk := (k * x + h) / s) in *. set (rk := (k * x + h) mod s) in *.
  assert (Hup : s * (qk - k * q1) <= (k + 1) * h) by nia.
  assert (Hlo : s * (k * q1 - qk) <= s - 1 + k * h) by nia.
  assert (2 * (qk - k * q1) <= k + 1) by nia.
  assert (2 * (k * q1 - qk) <= k + 1) by nia.
  lia.
Qed.

Lemma exact_multiple_quotient s c k :
  0 < s -> (k * (s * c) + s / 2) / s = k * c.
Proof.
  intros Hs.
  replace (k * (s * c) + s / 2) with (s / 2 + (k * c) * s) by lia.
  rewrite Z.div_add by lia.
  rewrite Z.div_small; [lia |].
  split; [apply Z.div_pos; lia | apply Z.div_lt_upper_bound; lia].
Qed.

(** C7 (amended): for a reference reading above the ground offset and
    without overflow, multiplying the reference value by [k] multiplies
    the result by [k] up to rounding: the two differ by at most
    [(k + 1) / 2], and are equal when the span divides the scaled delta
    so that nothing is rounded. *)
Theorem scaling_linear_up_to_rounding raw g r u k :
  well_typed raw g r u -> g < r -> 0 <= k ->
  no_overflow raw g r (k * u) ->
  exists v vk,
    convert raw g r u = Returns v /\
    convert raw g r (k * u) = Returns vk /\
    2 * Z.abs (vk - k * v) <= k + 1 /\
    ((r - g | (Z.max raw g - g) * u) -> vk = k * v).
Proof.
  intros Hwt Hgr Hk Hno.
  assert (Hu : 0 <= u) by (ranges; lia).
  destruct (Z.eq_dec raw 0) as [-> | Hraw].
  { exists 0, 0. rewrite !convert_zero. repeat split; lia. }
  assert (Hd : 0 <= Z.max raw g - g) by lia.
  rewrite (convert_exact raw g r (k * u)) by (try assumption; nia).
  replace ((Z.max raw g - g) * (k * u)) with (k * ((Z.max raw g - g) * u))
    by lia.
  assert (Hx : 0 <= (Z.max raw g - g) * u) by nia.
  destruct (Z.eq_dec k 0) as [-> | Hk0].
  - assert (Hs : span g r <> 0).
    { rewrite span_exact by apply Hno. lia. }
    rewrite (convert_returns raw g r u Hraw Hs).
    eexists. eexists. split; [reflexivity | split; [reflexivity |]].
    rewrite !Z.mul_0_l, Z.add_0_l.
    rewrite Z.div_small
      by (split; [apply Z.div_pos; lia | apply Z.div_lt_upper_bound; lia]).
    split; [lia | reflexivity].
  - assert (Hno1 : no_overflow raw g r u).
    { destruct Hno as [Hs Hov]. split; [assumption |].
      rewrite shiftr_1 in *.
      assert (0 <= (r - g) / 2) by (apply Z.div_pos; lia).
      replace ((Z.max raw g - g) * (k * u))
        with (k * ((Z.max raw g - g) * u)) in Hov by lia.
      ranges. nia. }
    rewrite (convert_exact raw g r u) by assumption.
    eexists. eexists. split; [reflexivity | split; [reflexivity |]].
    split.
    + apply scaled_quotient_bound; lia.
    + intros [c Hc]. rewrite Hc.
      replace (c * (r - g)) with ((r - g) * c) by lia.
      rewrite (exact_multiple_quotient (r - g) c k) by lia.
      replace ((r - g) * c) with (1 * ((r - g) * c)) at 1 by lia.
      rewrite (exact_multiple_quotient (r - g) c 1) by lia.
      lia.
Qed.

Lemma scaling_linear_up_to_rounding_witness :
  convert 600 100 1100 1000 = Returns 500 /\
  convert 600 100 1100 (3 * 1000) = Returns 1500.
Proof.
  assert (Hwt : well_typed 600 100 1100 1000) by (ranges; lia).
  assert (Hno : no_overflow 600 100 1100 (3 * 1000))
    by (split; split; vm_compute; (discriminate || reflexivity)).
  destruct (scaling_linear_up_to_rounding 600 100 1100 1000 3 Hwt
              ltac:(lia) ltac:(lia) Hno)
    as (v & vk & E1 & E2 & _ & Hdiv).
  assert (Hd : (1100 - 100 | (Z.max 600 100 - 100) * 1000))
    by (exists 500; reflexivity).
  specialize (Hdiv Hd).
  vm_compute in E1. injection E1 as <-.
  split; [reflexivity |].
  rewrite E2, Hdiv. reflexivity.
Defined.

(** *** Thirty-two bit arithmetic *)

(** C10, as stated, does not hold in its "only when": with span 1 the
    sum 1 * 2^31 + 0 does not fit in a signed 32-bit integer, and the
    result, read as unsigned, is still the exact 2^31. *)
Lemma exact_result_without_fit :
  ~ (forall raw g r u,
        well_typed raw g r u -> raw <> 0 -> g < r ->
        convert raw g r u = Returns (exact_millivolts raw g r u) ->
        in_int32 ((Z.max raw g - g) * u + Z.shiftr (r - g) 1)).
Proof.
  intros H. specialize (H 1 0 1 (2 ^ 31)).
  assert (Hwt : well_typed 1 0 1 (2 ^ 31)) by (ranges; lia).
  specialize (H Hwt ltac:(lia) ltac:(lia) eq_refl).
  vm_compute in H. destruct H as [_ H]. discriminate H.
Qed.

(** When the sum does not fit, the result is in general not the exact
    one: 2 * 2^31 wraps to 0. *)
Example convert_wraps :
  convert 2 0 1 (2 ^ 31) = Returns 0 /\
  exact_millivolts 2 0 1 (2 ^ 31) = 2 ^ 32.
Proof. split; reflexivity. Qed.

(** C10 (amended): the function computes modulo 2^32: past the shortcut
    and with a non-zero span, its result is the clamped delta times the
    reference value plus the bias, wrapped into a signed 32-bit integer,
    divided by the span and read as unsigned.  Whenever that sum and the
    span fit in a signed 32-bit integer, the result is the exact formula
    (read as unsigned; as it stands for a positive span). *)
Theorem convert_modulo_2_32 raw g r u :
  well_typed raw g r u -> raw <> 0 -> r <> g ->
  convert raw g r u =
    Returns (to_uint32
               (Z.quot (to_int32 ((Z.max raw g - g) * u
                                  + Z.shiftr (span g r) 1))
                       (span g r))) /\
  (no_overflow raw g r u ->
     convert raw g r u = Returns (to_uint32 (exact_millivolts raw g r u))) /\
  (no_overflow raw g r u -> g < r ->
     convert raw g r u = Returns (exact_millivolts raw g r u)).
Proof.
  intros Hwt Hraw Hrg.
  assert (Hs : span g r <> 0).
  { destruct Hwt as (_ & Hg & Hr & _). rewrite span_zero_iff; assumption. }
  split; [| split].
  - rewrite convert_returns, biased_wrapped by assumption. reflexivity.
  - intros Hno. rewrite convert_returns by assumption.
    rewrite biased_exact, span_exact by (try apply Hno; assumption).
    reflexivity.
  - intros Hno Hgr.
    rewrite convert_exact; [| assumption | assumption | ranges; lia | assumption].
    unfold exact_millivolts. rewrite shiftr_1.
    assert (0 <= (r - g) / 2) by (apply Z.div_pos; lia).
    assert (0 <= (Z.max raw g - g) * u)
      by (apply Z.mul_nonneg_nonneg; ranges; lia).
    rewrite Z.quot_div_nonneg by lia. reflexivity.
Qed.

Lemma convert_modulo_2_32_witness :
  convert 600 100 1100 1000 = Returns 500 /\
  exact_millivolts 600 100 1100 1000 = 500.
Proof.
  assert (Hwt : well_typed 600 100 1100 1000) by (ranges; lia).
  assert (Hno : no_overflow 600 100 1100 1000)
    by (split; split; vm_compute; (discriminate || reflexivity)).
  destruct (convert_modulo_2_32 600 100 1100 1000 Hwt ltac:(lia) ltac:(lia))
    as (_ & _ & H).
  split; [rewrite (H Hno ltac:(lia)) |]; reflexivity.
Defined.

(** ** The sampling loop *)

(** *** Running the device computations *)

Lemma bind_returns {A B} (m : hal A) (k : A -> hal B) d a d' :
  m d = (Returns a, d') -> bind m k d = k a d'.
Proof. intros H. unfold bind. rewrite H. reflexivity. Qed.

Lemma bind_faults {A B} (m : hal A) (k : A -> hal B) d d' :
  m d = (DivideByZero, d') -> bind m k d = (DivideByZero, d').
Proof. intros H. unfold bind. rewrite H. reflexivity. Qed.

Lemma set_puart_set_puart d p q :
  set_puart (set_puart d p) q = set_puart d q.
Proof. reflexivity. Qed.

Lemma puart_set_puart d p : puart (set_puart d p) = p.
Proof. reflexivity. Qed.

Lemma set_puart_same d : set_puart d (puart d) = d.
Proof. destruct d. reflexivity. Qed.

Lemma same_settings_set_puart d p : same_settings d (set_puart d p).
Proof. repeat split. Qed.

Lemma trace_run text d :
  WICED_BT_TRACE text d = (Returns tt, set_puart d (puart d ++ [text])).
Proof. reflexivity. Qed.

Lemma asterisks_run n d :
  asterisks n d =
    (Returns tt, set_puart d (puart d ++ repeat "*"%string n)).
Proof.
  revert d. induction n as [| n IH]; intros d.
  - cbn. unfold skip, lift. rewrite app_nil_r, set_puart_same. reflexivity.
  - cbn [asterisks repeat].
    rewrite (bind_returns _ _ _ _ _ (trace_run "*" d)), IH.
    rewrite set_puart_set_puart, puart_set_puart, <- app_assoc.
    reflexivity.
Qed.

Lemma print_n_asterisks_run N d :
  PRINT_N_ASTERISKS N d =
    (Returns tt,
     set_puart d (puart d ++ CRLF :: repeat "*"%string (Z.to_nat N) ++ [CRLF])).
Proof.
  unfold PRINT_N_ASTERISKS.
  rewrite (bind_returns _ _ _ _ _ (trace_run CRLF d)).
  rewrite (bind_returns _ _ _ _ _ (asterisks_run _ _)).
  rewrite trace_run.
  rewrite !set_puart_set_puart, !puart_set_puart, <- !app_assoc.
  reflexivity.
Qed.

(** X1: the separator macro never faults and only adds to the trace
    output: a line break, one asterisk per round of its loop and a line
    break, that is N + 2 trace calls for a count N of 0 or more; for a
    count of 0 or less the loop does not run and the two line breaks are
    all it prints. *)
Theorem print_n_asterisks_output N d :
  PRINT_N_ASTERISKS N d =
    (Returns tt,
     set_puart d (puart d ++ CRLF :: repeat "*"%string (Z.to_nat N) ++ [CRLF]))
  /\ (N <= 0 ->
      PRINT_N_ASTERISKS N d =
        (Returns tt, set_puart d (puart d ++ [CRLF; CRLF])))
  /\ (0 <= N ->
      exists added,
        snd (PRINT_N_ASTERISKS N d) = set_puart d (puart d ++ added) /\
        Z.of_nat (length added) = N + 2).
Proof.
  split; [apply print_n_asterisks_run |]. split.
  - intros HN. rewrite print_n_asterisks_run.
    replace (Z.to_nat N) with 0%nat by lia. reflexivity.
  - intros HN. eexists. rewrite print_n_asterisks_run.
    split; [reflexivity |].
    cbn [length]. rewrite length_app, repeat_length. cbn [length]. lia.
Qed.

Lemma print_n_asterisks_output_witness :
  let d := {| adc_ground_offset := 100; adc_reference_reading := 1100;
              adc_reference_micro_volts := 1000;
              seconds_timer := None; puart := ["boot"%string] |} in
  PRINT_N_ASTERISKS (-3) d
    = (Returns tt, set_puart d ["boot"%string; CRLF; CRLF]) /\
  length (puart (snd (PRINT_N_ASTERISKS 3 d))) = 6%nat.
Proof.
  intros d.
  destruct (print_n_asterisks_output (-3) d) as (_ & Hneg & _).
  destruct (print_n_asterisks_output 3 d) as (_ & _ & Hpos).
  split; [apply Hneg; lia |].
  destruct (Hpos ltac:(lia)) as (added & Hsnd & Hlen).
  rewrite Hsnd, puart_set_puart, length_app. cbn [puart d length]. lia.
Defined.

(** *** One channel report *)

Lemma convert_adc_raw_to_mvolt_run raw d :
  convert_adc_raw_to_mvolt raw d =
    (convert raw (adc_ground_offset d) (adc_reference_reading d)
             (adc_reference_micro_volts d), d).
Proof. reflexivity. Qed.

Lemma convert_result_range raw g r u mvolt :
  convert raw g r u = Returns mvolt -> in_uint32 mvolt.
Proof.
  unfold convert. destruct (raw =? 0).
  - intros H. injection H as <-. ranges. lia.
  - destruct (int32_div _ _); [| discriminate].
    intros H. injection H as <-. apply to_uint32_range.
Qed.

Lemma to_int16_small z : in_int16 z -> to_int16 z = z.
Proof.
  unfold to_int16. ranges. change (2 ^ 16) with 65536. intros H.
  rewrite Z.mod_small; lia.
Qed.

Lemma to_int16_range z : in_int16 (to_int16 z).
Proof.
  unfold to_int16. ranges. change (2 ^ 16) with 65536.
  pose proof (Z.mod_pos_bound (z + 32768) 65536). lia.
Qed.

Lemma report_faults_iff b v d channel :
  report_faults b v d channel = true <->
  DEVICE_SUPPORTS_FULL_ADC_API b = true /\
  convert (read_sign_raw_val b v channel) (adc_ground_offset d)
          (adc_reference_reading d) (adc_reference_micro_volts d)
    = DivideByZero.
Proof.
  unfold report_faults. rewrite convert_fault_span.
  rewrite !Bool.andb_true_iff, Bool.negb_true_iff, Z.eqb_neq, Z.eqb_eq.
  tauto.
Qed.

Lemma report_faults_set_puart b v d p channel :
  report_faults b v (set_puart d p) channel = report_faults b v d channel.
Proof. reflexivity. Qed.

(** A report either faults in the conversion, before anything is
    printed, or prints all its lines. *)
Lemma adc_readings_run b v d channel :
  adc_readings b v channel (GET_VARIABLE_NAME channel) d =
    if report_faults b v d channel
    then (DivideByZero, d)
    else (Returns tt, set_puart d (puart d ++ channel_report b v d channel)).
Proof.
  destruct (report_faults b v d channel) eqn:Hf.
  - apply report_faults_iff in Hf. destruct Hf as [Hfull Hc].
    unfold adc_readings. rewrite Hfull.
    apply bind_faults. rewrite convert_adc_raw_to_mvolt_run, Hc. reflexivity.
  - unfold adc_readings, channel_report, shown_conv_val.
    destruct (DEVICE_SUPPORTS_FULL_ADC_API b) eqn:Hfull.
    + destruct (convert (read_sign_raw_val b v channel) (adc_ground_offset d)
                  (adc_reference_reading d) (adc_reference_micro_volts d))
        as [mvolt |] eqn:Hc.
      * erewrite bind_returns
          by (rewrite convert_adc_raw_to_mvolt_run, Hc; reflexivity).
        cbv zeta.
        repeat rewrite (bind_returns _ _ _ _ _ (trace_run _ _)).
        rewrite ?trace_run, ?set_puart_set_puart, ?puart_set_puart,
          <- ?app_assoc.
        reflexivity.
      * assert (report_faults b v d channel = true)
          by (apply report_faults_iff; split; assumption).
        congruence.
    + repeat rewrite (bind_returns _ _ _ _ _ (trace_run _ _)).
      rewrite ?trace_run, ?set_puart_set_puart, ?puart_set_puart,
        <- ?app_assoc.
      reflexivity.
Qed.

Lemma channel_report_length b v d channel :
  length (channel_report b v d channel) = lines_per_channel b.
Proof.
  unfold channel_report, lines_per_channel.
  destruct (DEVICE_SUPPORTS_FULL_ADC_API b); reflexivity.
Qed.

(** X2: the report of a channel faults exactly on a full-API build when
    the raw sample read is not 0 and the reference reading equals the
    ground offset; the fault comes before the first trace call, so the
    device, its output included, is as it was and none of the channel's
    values is shown, the driver's own voltage value included.  On the
    other builds, and for a raw sample of 0, the report never faults. *)
Theorem adc_readings_faults_iff b v channel d :
  in_int32 (adc_ground_offset d) -> in_int32 (adc_reference_reading d) ->
  (fst (adc_readings b v channel (GET_VARIABLE_NAME channel) d) = DivideByZero
   <-> DEVICE_SUPPORTS_FULL_ADC_API b = true /\
       read_sign_raw_val b v channel <> 0 /\
       adc_reference_reading d = adc_ground_offset d) /\
  (fst (adc_readings b v channel (GET_VARIABLE_NAME channel) d) = DivideByZero
   -> snd (adc_readings b v channel (GET_VARIABLE_NAME channel) d) = d).
Proof.
  intros Hg Hr. rewrite adc_readings_run.
  destruct (report_faults b v d channel) eqn:Hf; cbn [fst snd].
  - split; [| reflexivity].
    apply report_faults_iff in Hf. destruct Hf as [Hfull Hc].
    apply convert_fault_span in Hc. destruct Hc as [Hraw Hs].
    apply (span_zero_iff _ _ Hg Hr) in Hs.
    split; [intros _ | reflexivity].
    split; [assumption | split; assumption].
  - split; [| discriminate].
    split; [discriminate |].
    intros (Hfull & Hraw & Hs).
    assert (report_faults b v d channel = true); [| congruence].
    apply report_faults_iff. split; [assumption |].
    apply convert_fault_span. split; [assumption |].
    apply span_zero_iff; assumption.
Qed.

Lemma adc_readings_faults_iff_witness :
  let b := sample_build true false in
  let v := sample_vendor (fun _ => 600) in
  let d := sample_device 7 7 1000 in
  adc_readings b v ADC_INPUT_P0 "ADC_INPUT_P0" d = (DivideByZero, d).
Proof.
  intros b v d.
  assert (H7 : in_int32 7) by (unfold in_int32; lia).
  destruct (adc_readings_faults_iff b v ADC_INPUT_P0 d H7 H7) as [Hiff Hsame].
  assert (Hf : fst (adc_readings b v ADC_INPUT_P0 "ADC_INPUT_P0" d)
               = DivideByZero).
  { apply Hiff. split; [reflexivity | split; [discriminate | reflexivity]]. }
  specialize (Hsame Hf). cbn [GET_VARIABLE_NAME] in Hsame.
  destruct (adc_readings b v ADC_INPUT_P0 "ADC_INPUT_P0" d) as [o d'].
  cbn [fst snd] in Hf, Hsame. rewrite Hf, Hsame. reflexivity.
Defined.

(** X3: when the conversion returns, the report prints the channel
    name, the raw sample, the driver's voltage value, the converted
    value and an empty line, in this order; the converted value shown is
    the conversion result stored in a 16-bit signed variable, which is
    the result itself exactly when the result is below 32768. *)
Theorem adc_readings_shows_int16 b v channel d mvolt :
  DEVICE_SUPPORTS_FULL_ADC_API b = true ->
  convert (read_sign_raw_val b v channel) (adc_ground_offset d)
          (adc_reference_reading d) (adc_reference_micro_volts d)
    = Returns mvolt ->
  adc_readings b v channel (GET_VARIABLE_NAME channel) d =
    (Returns tt,
     set_puart d
       (puart d ++
        [channel_line (GET_VARIABLE_NAME channel);
         raw_sample_line v (read_sign_raw_val b v channel);
         fw_voltage_line v (wiced_hal_adc_read_voltage v channel);
         converted_line v (to_int16 mvolt);
         CRLF])) /\
  (to_int16 mvolt = mvolt <-> mvolt < 2 ^ 15).
Proof.
  intros Hfull Hc. split.
  - rewrite adc_readings_run.
    destruct (report_faults b v d channel) eqn:Hf.
    + apply report_faults_iff in Hf. destruct Hf as [_ Hf]. congruence.
    + unfold channel_report, shown_conv_val. rewrite Hfull, Hc. reflexivity.
  - apply convert_result_range in Hc. split.
    + intros E. pose proof (to_int16_range mvolt) as H.
      rewrite E in H. ranges. lia.
    + intros H. apply to_int16_small. ranges. lia.
Qed.

Lemma adc_readings_shows_int16_witness :
  let b := sample_build true false in
  let v := sample_vendor (fun _ => 1000) in
  let d := sample_device 0 1000 40000 in
  convert 1000 0 1000 40000 = Returns 40000 /\
  puart (snd (adc_readings b v ADC_INPUT_P0 "ADC_INPUT_P0" d)) =
    [channel_line "ADC_INPUT_P0";
     raw_sample_line v 1000;
     fw_voltage_line v 1800;
     converted_line v (-25536);
     CRLF] /\
  to_int16 40000 <> 40000.
Proof.
  intros b v d.
  assert (Hc : convert (read_sign_raw_val b v ADC_INPUT_P0)
                 (adc_ground_offset d) (adc_reference_reading d)
                 (adc_reference_micro_volts d) = Returns 40000)
    by reflexivity.
  destruct (adc_readings_shows_int16 b v ADC_INPUT_P0 d 40000 eq_refl Hc)
    as [Hrun Hiff].
  split; [reflexivity |]. split.
  - cbn [GET_VARIABLE_NAME] in Hrun. rewrite Hrun. reflexivity.
  - intros E. apply Hiff in E. vm_compute in E. discriminate E.
Defined.

(** *** The timer callback *)

Lemma reported_set_puart b v d p channels :
  reported b v (set_puart d p) channels = reported b v d channels.
Proof.
  induction channels as [| channel rest IH]; [reflexivity |].
  cbn [reported]. rewrite report_faults_set_puart, IH. reflexivity.
Qed.

Lemma channel_report_set_puart b v d p channel :
  channel_report b v (set_puart d p) channel = channel_report b v d channel.
Proof. reflexivity. Qed.

(** The reports of a list of channels stop at the first one that
    faults. *)
Lemma report_all_run b v channels d :
  report_all b v channels d =
    (if forallb (fun channel => negb (report_faults b v d channel)) channels
     then Returns tt else DivideByZero,
     set_puart d
       (puart d ++ flat_map (channel_report b v d) (reported b v d channels))).
Proof.
  revert d. induction channels as [| channel rest IH]; intros d.
  - cbn. unfold skip, lift. rewrite app_nil_r, set_puart_same. reflexivity.
  - cbn [report_all forallb reported].
    pose proof (adc_readings_run b v d channel) as Hrun.
    destruct (report_faults b v d channel) eqn:Hf.
    + rewrite (bind_faults _ _ _ _ Hrun).
      cbn. rewrite app_nil_r, set_puart_same. reflexivity.
    + rewrite (bind_returns _ _ _ _ _ Hrun), IH.
      rewrite reported_set_puart, set_puart_set_puart, puart_set_puart.
      cbn [negb andb flat_map]. rewrite <- app_assoc.
      f_equal.
Qed.

Lemma bind_skip_r (m : hal unit) d : (m ;;; skip) d = m d.
Proof.
  unfold bind. destruct (m d) as [[[] |] d']; reflexivity.
Qed.

Lemma bind_ext {A B} (m : hal A) (k k' : A -> hal B) d :
  (forall a d', k a d' = k' a d') -> bind m k d = bind m k' d.
Proof.
  intros H. unfold bind. destruct (m d) as [[a |] d']; [apply H | reflexivity].
Qed.

(** The timer callback is the separator followed by the reports of the
    sampled channels. *)
Lemma seconds_app_timer_cb_reports b v arg d :
  seconds_app_timer_cb b v arg d =
    (PRINT_N_ASTERISKS 70 ;;; report_all b v (sampled_channels b)) d.
Proof.
  unfold seconds_app_timer_cb, sampled_channels.
  apply bind_ext. intros _ d1.
  cbn [app report_all GET_VARIABLE_NAME].
  apply bind_ext. intros _ d2.
  apply bind_ext. intros _ d3.
  destruct (ADC_INPUT_VDDIO_defined b); cbn [app report_all GET_VARIABLE_NAME].
  - apply bind_ext. intros _ d4. symmetry. apply bind_skip_r.
  - unfold bind at 1. cbn [skip lift]. symmetry. apply bind_skip_r.
Qed.

Lemma seconds_app_timer_cb_run b v arg d :
  seconds_app_timer_cb b v arg d =
    (if forallb (fun channel => negb (report_faults b v d channel))
          (sampled_channels b)
     then Returns tt else DivideByZero,
     set_puart d
       (puart d ++ separator
        ++ flat_map (channel_report b v d)
             (reported b v d (sampled_channels b)))).
Proof.
  rewrite seconds_app_timer_cb_reports.
  rewrite (bind_returns _ _ _ _ _ (print_n_asterisks_run 70 d)).
  rewrite report_all_run.
  rewrite reported_set_puart, set_puart_set_puart, puart_set_puart.
  rewrite <- app_assoc. reflexivity.
Qed.

Lemma report_faults_false_iff b v d channel :
  in_int32 (adc_ground_offset d) -> in_int32 (adc_reference_reading d) ->
  (report_faults b v d channel = false <->
   DEVICE_SUPPORTS_FULL_ADC_API b = false \/
   adc_reference_reading d <> adc_ground_offset d \/
   read_sign_raw_val b v channel = 0).
Proof.
  intros Hg Hr. unfold report_faults.
  rewrite !Bool.andb_false_iff, Bool.negb_false_iff, Z.eqb_eq, Z.eqb_neq.
  rewrite (span_zero_iff _ _ Hg Hr). tauto.
Qed.

(** X4: the timer callback runs to its end exactly when the conversion
    is not compiled in, or the reference reading differs from the ground
    offset, or every channel it samples reads a raw sample of 0. *)
Theorem seconds_app_timer_cb_completes_iff b v arg d :
  in_int32 (adc_ground_offset d) -> in_int32 (adc_reference_reading d) ->
  (fst (seconds_app_timer_cb b v arg d) = Returns tt <->
   DEVICE_SUPPORTS_FULL_ADC_API b = false \/
   adc_reference_reading d <> adc_ground_offset d \/
   Forall (fun channel => read_sign_raw_val b v channel = 0)
          (sampled_channels b)).
Proof.
  intros Hg Hr. rewrite seconds_app_timer_cb_run. cbn [fst].
  set (ok := forallb _ _).
  assert (Hok : ok = true <->
                Forall (fun channel => report_faults b v d channel = false)
                       (sampled_channels b)).
  { unfold ok. rewrite forallb_forall, Forall_forall.
    split; intros H x Hx; specialize (H x Hx);
      destruct (report_faults b v d x); auto; discriminate. }
  assert (Hall :
            Forall (fun channel => report_faults b v d channel = false)
                   (sampled_channels b) <->
            DEVICE_SUPPORTS_FULL_ADC_API b = false \/
            adc_reference_reading d <> adc_ground_offset d \/
            Forall (fun channel => read_sign_raw_val b v channel = 0)
                   (sampled_channels b)).
  { rewrite !Forall_forall. split.
    - intros H.
      destruct (DEVICE_SUPPORTS_FULL_ADC_API b) eqn:Hfull; [| auto].
      destruct (Z.eq_dec (adc_reference_reading d) (adc_ground_offset d))
        as [E | NE]; [| auto].
      right. right. intros x Hx.
      apply (report_faults_false_iff b v d x Hg Hr) in H; [| assumption].
      rewrite Hfull in H.
      destruct H as [H | [H | H]]; [discriminate | contradiction | exact H].
    - intros H x Hx. apply (report_faults_false_iff b v d x Hg Hr).
      destruct H as [H | [H | H]]; auto. }
  rewrite <- Hall, <- Hok.
  destruct ok; split; intros H; (reflexivity || discriminate || auto).
Qed.

Lemma seconds_app_timer_cb_completes_iff_witness :
  let b := sample_build true true in
  let quiet := sample_vendor (fun _ => 0) in
  let noisy := sample_vendor
                 (fun channel => match channel with
                                 | ADC_INPUT_VDD_CORE => 600
                                 | _ => 0
                                 end) in
  let d := sample_device 7 7 1000 in
  fst (seconds_app_timer_cb b quiet 0 d) = Returns tt /\
  fst (seconds_app_timer_cb b noisy 0 d) <> Returns tt.
Proof.
  intros b quiet noisy d.
  assert (H7 : in_int32 7) by (unfold in_int32; lia).
  split.
  - apply (seconds_app_timer_cb_completes_iff b quiet 0 d H7 H7).
    right. right. repeat constructor.
  - intros H.
    apply (seconds_app_timer_cb_completes_iff b noisy 0 d H7 H7) in H.
    destruct H as [H | [H | H]].
    + discriminate H.
    + apply H. reflexivity.
    + rewrite Forall_forall in H.
      specialize (H ADC_INPUT_VDD_CORE ltac:(cbn; auto)).
      discriminate H.
Defined.

Lemma reported_all b v d channels :
  forallb (fun channel => negb (report_faults b v d channel)) channels = true ->
  reported b v d channels = channels.
Proof.
  induction channels as [| channel rest IH]; [reflexivity |].
  cbn [forallb reported]. destruct (report_faults b v d channel).
  - discriminate.
  - cbn [negb andb]. intros H. rewrite IH by assumption. reflexivity.
Qed.

Lemma flat_map_report_length b v d channels :
  length (flat_map (channel_report b v d) channels)
  = (length channels * lines_per_channel b)%nat.
Proof.
  induction channels as [| channel rest IH]; [reflexivity |].
  cbn [flat_map length]. rewrite length_app, channel_report_length, IH.
  lia.
Qed.

(** X5: whatever the readings, the timer callback leaves the
    calibration values and the timer as they are and keeps the earlier
    trace output, adding the 72 entries of the separator and then
    complete channel reports only, of the sampled channels in their
    order up to the first report that faults; when it runs to its end
    it has added 72 entries plus five (full-API builds) or four per
    sampled channel. *)
Theorem seconds_app_timer_cb_output b v arg d :
  snd (seconds_app_timer_cb b v arg d) =
    set_puart d
      (puart d ++ separator
       ++ flat_map (channel_report b v d)
            (reported b v d (sampled_channels b))) /\
  same_settings d (snd (seconds_app_timer_cb b v arg d)) /\
  (fst (seconds_app_timer_cb b v arg d) = Returns tt ->
   length (puart (snd (seconds_app_timer_cb b v arg d))) =
     (length (puart d) + 72
      + length (sampled_channels b) * lines_per_channel b)%nat).
Proof.
  rewrite seconds_app_timer_cb_run. cbn [fst snd].
  split; [reflexivity |]. split; [apply same_settings_set_puart |].
  destruct (forallb _ _) eqn:Hok; [| discriminate].
  intros _. rewrite (reported_all _ _ _ _ Hok).
  rewrite puart_set_puart, !length_app, flat_map_report_length.
  change (length separator) with 72%nat. lia.
Qed.

Lemma seconds_app_timer_cb_output_witness :
  let b := sample_build true true in
  let v := sample_vendor (fun _ => 600) in
  let d := sample_device 100 1100 1000 in
  fst (seconds_app_timer_cb b v 0 d) = Returns tt /\
  length (puart (snd (seconds_app_timer_cb b v 0 d))) = 92%nat.
Proof.
  intros b v d.
  assert (Hok : fst (seconds_app_timer_cb b v 0 d) = Returns tt)
    by reflexivity.
  destruct (seconds_app_timer_cb_output b v 0 d) as (_ & _ & Hlen).
  split; [exact Hok |].
  rewrite (Hlen Hok). reflexivity.
Defined.

Lemma reported_zero_span b v d channels :
  DEVICE_SUPPORTS_FULL_ADC_API b = true ->
  adc_reference_reading d = adc_ground_offset d ->
  reported b v d channels = zero_prefix b v channels.
Proof.
  intros Hfull Hs.
  induction channels as [| channel rest IH]; [reflexivity |].
  cbn [reported zero_prefix]. unfold report_faults.
  rewrite Hfull, Hs. unfold span, int32_sub. rewrite Z.sub_diag.
  change (to_int32 0 =? 0) with true.
  destruct (read_sign_raw_val b v channel =? 0); cbn [negb andb].
  - rewrite IH. reflexivity.
  - reflexivity.
Qed.

Lemma zero_prefix_zero b v channels channel :
  In channel (zero_prefix b v channels) -> read_sign_raw_val b v channel = 0.
Proof.
  induction channels as [| c rest IH]; [intros [] |].
  cbn [zero_prefix]. destruct (Z.eqb_spec (read_sign_raw_val b v c) 0) as [E | NE].
  - intros [<- | H]; [exact E | apply IH, H].
  - intros [].
Qed.

(** X6: on a full-API build whose reference reading equals the ground
    offset, the timer callback prints the separator and then the reports
    of the leading sampled channels that read a raw sample of 0, each
    with the converted value 0, and stops with the fault at the first
    channel that reads anything else; if that is the first channel,
    P0, the separator is all it prints. *)
Theorem seconds_app_timer_cb_zero_span b v arg d :
  DEVICE_SUPPORTS_FULL_ADC_API b = true ->
  adc_reference_reading d = adc_ground_offset d ->
  snd (seconds_app_timer_cb b v arg d) =
    set_puart d
      (puart d ++ separator
       ++ flat_map (channel_report b v d)
            (zero_prefix b v (sampled_channels b))) /\
  (forall channel,
     In channel (zero_prefix b v (sampled_channels b)) ->
     shown_conv_val b v d channel = 0) /\
  (read_sign_raw_val b v ADC_INPUT_P0 <> 0 ->
   seconds_app_timer_cb b v arg d =
     (DivideByZero, set_puart d (puart d ++ separator))).
Proof.
  intros Hfull Hs. rewrite seconds_app_timer_cb_run. cbn [snd].
  rewrite (reported_zero_span b v d _ Hfull Hs).
  split; [reflexivity |]. split.
  - intros channel Hin. apply zero_prefix_zero in Hin.
    unfold shown_conv_val. rewrite Hin. reflexivity.
  - intros Hraw. unfold sampled_channels.
    cbn [app forallb zero_prefix]. unfold report_faults at 1.
    rewrite Hfull, Hs. unfold span, int32_sub. rewrite Z.sub_diag.
    change (to_int32 0 =? 0) with true.
    destruct (Z.eqb_spec (read_sign_raw_val b v ADC_INPUT_P0) 0);
      [contradiction |].
    cbn [negb andb flat_map]. rewrite app_nil_r. reflexivity.
Qed.

Lemma seconds_app_timer_cb_zero_span_witness :
  let b := sample_build true false in
  let v := sample_vendor
             (fun channel => match channel with
                             | ADC_INPUT_P0 => 0
                             | _ => 600
                             end) in
  let v' := sample_vendor (fun _ => 600) in
  let d := sample_device 7 7 1000 in
  length (puart (snd (seconds_app_timer_cb b v 0 d))) = (72 + 5)%nat /\
  shown_conv_val b v d ADC_INPUT_P0 = 0 /\
  seconds_app_timer_cb b v' 0 d = (DivideByZero, set_puart d separator).
Proof.
  intros b v v' d.
  destruct (seconds_app_timer_cb_zero_span b v 0 d eq_refl eq_refl)
    as (Hout & Hzero & _).
  destruct (seconds_app_timer_cb_zero_span b v' 0 d eq_refl eq_refl)
    as (_ & _ & Hfirst).
  split; [rewrite Hout; reflexivity |].
  split; [apply Hzero; cbn; auto |].
  rewrite Hfirst; [reflexivity | discriminate].
Defined.

(** *** The value shown for a channel *)

(** X7: on a full-API build, for a non-zero raw sample, a reference
    reading above the ground offset and no 32-bit overflow, the report
    prints its five lines with, as the converted value, the calibration
    formula's value stored in a 16-bit signed variable; what is shown is
    the formula's value exactly when that value is below 32768. *)
Theorem adc_readings_shows_exact b v channel d :
  let raw := read_sign_raw_val b v channel in
  let g := adc_ground_offset d in
  let r := adc_reference_reading d in
  let u := adc_reference_micro_volts d in
  DEVICE_SUPPORTS_FULL_ADC_API b = true ->
  well_typed raw g r u -> raw <> 0 -> g < r -> no_overflow raw g r u ->
  adc_readings b v channel (GET_VARIABLE_NAME channel) d =
    (Returns tt,
     set_puart d
       (puart d ++
        [channel_line (GET_VARIABLE_NAME channel);
         raw_sample_line v raw;
         fw_voltage_line v (wiced_hal_adc_read_voltage v channel);
         converted_line v (to_int16 (exact_millivolts raw g r u));
         CRLF])) /\
  (to_int16 (exact_millivolts raw g r u) = exact_millivolts raw g r u <->
   exact_millivolts raw g r u < 2 ^ 15).
Proof.
  intros raw g r u Hfull Hwt Hraw Hgr Hno.
  assert (Hu : 0 <= u) by (ranges; lia).
  assert (Hh : 0 <= (r - g) / 2) by (apply Z.div_pos; lia).
  assert (Hx : 0 <= (Z.max raw g - g) * u)
    by (apply Z.mul_nonneg_nonneg; lia).
  assert (Hex : exact_millivolts raw g r u
                = ((Z.max raw g - g) * u + (r - g) / 2) / (r - g)).
  { unfold exact_millivolts. rewrite shiftr_1.
    apply Z.quot_div_nonneg; lia. }
  assert (Hc : convert raw g r u = Returns (exact_millivolts raw g r u)).
  { rewrite Hex. apply convert_exact; assumption. }
  split.
  - rewrite adc_readings_run.
    destruct (report_faults b v d channel) eqn:Hf.
    + apply report_faults_iff in Hf. destruct Hf as [_ Hf].
      fold raw g r u in Hf. congruence.
    + unfold channel_report, shown_conv_val. fold raw g r u.
      rewrite Hfull, Hc. reflexivity.
  - assert (Hq : 0 <= exact_millivolts raw g r u)
      by (rewrite Hex; apply Z.div_pos; lia).
    split.
    + intros E. pose proof (to_int16_range (exact_millivolts raw g r u)) as H16.
      rewrite E in H16. ranges. lia.
    + intros H16. apply to_int16_small. ranges. lia.
Qed.

Lemma adc_readings_shows_exact_witness :
  let b := sample_build true false in
  let v := sample_vendor (fun _ => 600) in
  let d := sample_device 100 1100 1000 in
  let d' := sample_device 100 1100 80000 in
  puart (snd (adc_readings b v ADC_INPUT_P0 "ADC_INPUT_P0" d)) =
    [channel_line "ADC_INPUT_P0"; raw_sample_line v 600;
     fw_voltage_line v 1800; converted_line v 500; CRLF] /\
  exact_millivolts 600 100 1100 80000 = 40000 /\
  puart (snd (adc_readings b v ADC_INPUT_P0 "ADC_INPUT_P0" d')) =
    [channel_line "ADC_INPUT_P0"; raw_sample_line v 600;
     fw_voltage_line v 1800; converted_line v (-25536); CRLF] /\
  to_int16 40000 <> 40000.
Proof.
  intros b v d d'.
  assert (Hwt : forall u, in_uint32 u -> well_typed 600 100 1100 u)
    by (intros u Hu; ranges; lia).
  assert (Hno1 : no_overflow 600 100 1100 1000)
    by (split; split; vm_compute; (discriminate || reflexivity)).
  assert (Hno2 : no_overflow 600 100 1100 80000)
    by (split; split; vm_compute; (discriminate || reflexivity)).
  assert (Hu1 : in_uint32 1000) by (ranges; lia).
  assert (Hu2 : in_uint32 80000) by (ranges; lia).
  destruct (adc_readings_shows_exact b v ADC_INPUT_P0 d eq_refl
              (Hwt _ Hu1) ltac:(discriminate) ltac:(reflexivity) Hno1)
    as [Hrun1 _].
  destruct (adc_readings_shows_exact b v ADC_INPUT_P0 d' eq_refl
              (Hwt _ Hu2) ltac:(discriminate) ltac:(reflexivity) Hno2)
    as [Hrun2 Hiff2].
  cbn [GET_VARIABLE_NAME] in Hrun1, Hrun2.
  split; [rewrite Hrun1; reflexivity |].
  split; [reflexivity |].
  split; [rewrite Hrun2; reflexivity |].
  intros E.
  assert (H : exact_millivolts 600 100 1100 80000 < 2 ^ 15)
    by (apply Hiff2; exact E).
  vm_compute in H. discriminate H.
Defined.
